(** * Column profiling in the Boston crime-reports notebook

    A shallow embedding of the data-inspection cells of
    [crime_reports_db.ipynb]: the auxiliary function [get_col_set], the
    loop that prints the number of distinct values of every column, and the
    computation of the longest value of a column ([desc_max_length]).

    The file read by [open] is represented by the sequence of rows that
    [csv.reader] yields from it, a Python [set] of strings by a [gset string],
    and a raised exception by the left injection of a sum.  A field is a
    [string], whose [String.length] counts its characters as [len] does;
    an integer is a [Z]. *)

From Stdlib Require Import ZArith Lia.
From stdpp Require Import gmap strings list pretty.

Local Open Scope Z_scope.
Local Open Scope nat_scope.

(** ** Exceptions and the interpreter state *)

(** The built-in exceptions that the modelled cells can raise. *)
Inductive exception : Set :=
  | StopIteration
  | IndexError
  | ValueError
  | FileNotFoundError.

#[global] Instance exception_eq_dec : EqDecision exception.
Proof. solve_decision. Defined.

(** An expression either raises or evaluates to a value. *)
Definition result (A : Type) : Type := exception + A.

Definition raise {A : Type} (e : exception) : result A := inl e.

#[global] Instance result_ret : MRet result := λ A x, inr x.
#[global] Instance result_bind : MBind result := λ A B f m,
  match m with
  | inl e => inl e
  | inr x => f x
  end.

#[global] Instance result_fmap : FMap result := λ A B f m,
  match m with
  | inl e => inl e
  | inr x => inr (f x)
  end.

(** One record of a csv file, as [csv.reader] yields it. *)
Abbreviation row := (list string).

(** What a cell can observe and change: the files on disk, each given by the
    rows a [csv.reader] yields from it, and the lines printed so far. *)
Record world : Type := World {
  files : gmap string (list row);
  stdout : list string
}.

(** A statement runs in a world and leaves a world, also when it raises. *)
Definition py (A : Type) : Type := world → result A * world.

#[global] Instance py_ret : MRet py := λ A x w, (inr x, w).
#[global] Instance py_bind : MBind py := λ A B f m w,
  match m w with
  | (inl e, w') => (inl e, w')
  | (inr x, w') => f x w'
  end.

(** An expression without effects, used as a statement. *)
Definition lift {A : Type} (r : result A) : py A := λ w, (r, w).

(** ** Built-ins *)

(** [with open(csv_filename) as f: reader = csv.reader(f)]: the rows of the
    file.  The handle is released when the block is left, on every path, so
    no trace of it stays in the world. *)
Definition open_reader (csv_filename : string) : py (list row) := λ w,
  match files w !! csv_filename with
  | Some rows => (inr rows, w)
  | None => (raise FileNotFoundError, w)
  end.

(** [next(reader)]: the first remaining row and the rest of the iterator. *)
Definition next (reader : list row) : result (row * list row) :=
  match reader with
  | [] => raise StopIteration
  | r :: reader' => inr (r, reader')
  end.

(** [r[col_index]] on a list: a negative index counts from the end, and an
    index outside [-len(r) .. len(r) - 1] raises [IndexError]. *)
Definition getitem (r : row) (col_index : Z) : result string :=
  let i := if (col_index <? 0)%Z then (Z.of_nat (length r) + col_index)%Z
           else col_index in
  if (i <? 0)%Z then raise IndexError
  else match r !! Z.to_nat i with
       | Some v => inr v
       | None => raise IndexError
       end.

(** [set(row[col_index] for row in reader)], started from the values already
    collected: the rows are consumed in order and the first failing
    subscript ends the construction. *)
Fixpoint set_of_column (reader : list row) (col_index : Z)
    (acc : gset string) : result (gset string) :=
  match reader with
  | [] => inr acc
  | r :: reader' =>
      match getitem r col_index with
      | inl e => inl e
      | inr v => set_of_column reader' col_index (acc ∪ {[ v ]})
      end
  end.

(** [max(xs)] over the items in iteration order: [ValueError] on an empty
    iterable, otherwise the first item, replaced by each later item that is
    greater. *)
Definition py_max (xs : list nat) : result nat :=
  match xs with
  | [] => raise ValueError
  | x :: xs' => inr (fold_left (λ m y, if m <? y then y else m) xs' x)
  end.

(** [print(line)]. *)
Definition print (line : string) : py () := λ w,
  (inr (), {| files := files w; stdout := stdout w ++ [line] |}).

(** ** The cells *)

(** [[
def get_col_set(csv_filename, col_index):
    with open(csv_filename) as f:
        reader = csv.reader(f)
        next(reader)
        return set(row[col_index] for row in reader)
]] *)
Definition get_col_set (csv_filename : string) (col_index : Z)
    : py (gset string) :=
  reader ← open_reader csv_filename;
  lift ('(_, reader) ← next reader;
        set_of_column reader col_index ∅).

(** [num_unique_values = len(get_col_set(csv_filename, i))]. *)
Definition num_unique_values (csv_filename : string) (i : Z) : py nat :=
  s ← get_col_set csv_filename i;
  mret (size s).

(** The line printed for column [i]:
    [f"- Column '{col_headers[i]}' has {num_unique_values} unique values"]. *)
Definition column_line (name : string) (num_unique_values : nat) : string :=
  "- Column '" +:+ name +:+ "' has " +:+ pretty num_unique_values
    +:+ " unique values".

(** The body of the loop [for i in range(len(col_headers))], run for the
    indices [indices] in turn. *)
Fixpoint profiling_loop (csv_filename : string) (col_headers : row)
    (indices : list nat) : py () :=
  match indices with
  | [] => mret ()
  | i :: indices' =>
      n ← num_unique_values csv_filename (Z.of_nat i);
      name ← lift (getitem col_headers (Z.of_nat i));
      print (column_line name n);;
      profiling_loop csv_filename col_headers indices'
  end.

(** [[
for i in range(len(col_headers)):
    num_unique_values = len(get_col_set("boston.csv", i))
    print(f"- Column '{col_headers[i]}' has {num_unique_values} unique values")
]]
    The notebook names the file ["boston.csv"]; it is a parameter here. *)
Definition profile_columns (csv_filename : string) (col_headers : row)
    : py () :=
  profiling_loop csv_filename col_headers (seq 0 (length col_headers)).

(** [desc_max_length = max(len(val) for val in desc_unique_values)].  The
    set is iterated in the order of [elements]; the order is immaterial to
    the maximum (see [desc_max_length_any_order]). *)
Definition desc_max_length (desc_unique_values : gset string) : result nat :=
  py_max (String.length <$> elements desc_unique_values).

(** [[
desc_unique_values = get_col_set("boston.csv", 2)
desc_max_length = max(len(val) for val in desc_unique_values)
]]
    for any file and column; the notebook runs it on ["boston.csv"] and
    column 2. *)
Definition column_max_length (csv_filename : string) (col_index : Z)
    : py nat :=
  desc_unique_values ← get_col_set csv_filename col_index;
  lift (desc_max_length desc_unique_values).

(** ** The cell that shows the column names *)

(** [[
with open("boston.csv") as f:
    reader = csv.reader(f)
    col_headers = next(reader)
    first_row = next(reader)

print("Column names -->", col_headers)
print("First row of data -->", first_row)
]]
    The value of the cell is the pair of the two names it binds.  [print]
    writes its two arguments with a space between them and shows a list by
    its [repr], which is a parameter here, as is the name of the file. *)
Definition column_names_and_sample (repr : row → string)
    (csv_filename : string) : py (row * row) :=
  reader ← open_reader csv_filename;
  '(col_headers, first_row) ← lift ('(col_headers, reader) ← next reader;
                                    '(first_row, _) ← next reader;
                                    mret (col_headers, first_row));
  print ("Column names --> " +:+ repr col_headers);;
  print ("First row of data --> " +:+ repr first_row);;
  mret (col_headers, first_row).

(** That cell followed by the loop over the columns, which uses the
    [col_headers] bound by it. *)
Definition inspect_columns (repr : row → string) (csv_filename : string)
    : py () :=
  '(col_headers, _) ← column_names_and_sample repr csv_filename;
  profile_columns csv_filename col_headers.

(** The indices that a subscript of [r] accepts. *)
Definition in_range (r : row) (i : Z) : Prop :=
  (- Z.of_nat (length r) ≤ i < Z.of_nat (length r))%Z.

#[global] Instance in_range_dec r i : Decision (in_range r i).
Proof. unfold in_range. apply _. Defined.

(** The world after [lines] have been printed. *)
Definition printed (w : world) (lines : list string) : world :=
  {| files := files w; stdout := stdout w ++ lines |}.

(** ** The profile of the specification *)

(** [m] is the length of a longest string of [s]. *)
Definition is_max_length (s : gset string) (m : nat) : Prop :=
  (∃ v, v ∈ s ∧ String.length v = m) ∧ ∀ v, v ∈ s → String.length v ≤ m.

(** The single-pass variant that the specification describes, not the
    notebook: the row scan inserts each field into the set and keeps the
    running maximum of the field lengths, which starts at 0. *)
Fixpoint scan_running_max (reader : list row) (col_index : Z)
    (acc : gset string) (max_length : nat) : result (gset string * nat) :=
  match reader with
  | [] => inr (acc, max_length)
  | r :: reader' =>
      match getitem r col_index with
      | inl e => inl e
      | inr v =>
          scan_running_max reader' col_index (acc ∪ {[ v ]})
            (max_length `max` String.length v)
      end
  end.

Definition spec_running_max_length (csv_filename : string) (col_index : Z)
    : py nat :=
  reader ← open_reader csv_filename;
  lift ('(_, reader) ← next reader;
        '(_, max_length) ← scan_running_max reader col_index ∅ 0;
        mret max_length).

(** What that scan keeps true of its two accumulators. *)
Definition running_inv (acc : gset string) (m : nat) : Prop :=
  (acc = ∅ ∧ m = 0) ∨ is_max_length acc m.

(** ** Sample tables *)

(** A disk that holds [rows] as ["boston.csv"], and nothing printed yet. *)
Definition disk (rows : list row) : world :=
  {| files := {[ "boston.csv" := rows ]}; stdout := [] |}.

Definition day_csv : list row :=
  [["day"]; ["Mon"]; ["Tue"]; ["Mon"]].

Definition desc_csv : list row :=
  [["id"; "desc"]; ["1"; "LARCENY"]; ["2"; "VANDALISM"]; ["3"; "LARCENY"]].

(** Only a header. *)
Definition header_only_csv : list row := [["id"; "desc"]].

(** A second row that lacks the second field. *)
Definition short_row_csv : list row :=
  [["id"; "desc"]; ["1"; "LARCENY"]; ["2"]].

(** Rows longer than the header. *)
Definition long_rows_csv : list row :=
  [["id"; "desc"]; ["1"; "LARCENY"; "x"; "y"; "z"; "Sunday"]].

(** Three files: two tables with the same header and one that holds the
    data rows of both. *)
Definition two_parts : world :=
  {| files := {[ "jan.csv" := [["id"; "desc"]; ["1"; "LARCENY"]];
                 "feb.csv" := [["id"; "desc"]; ["2"; "VANDALISM"];
                               ["3"; "LARCENY"]];
                 "boston.csv" := desc_csv ]};
     stdout := [] |}.

(** ** The subscript *)

Section getitem.
Implicit Types (r : row) (i k : nat) (v : string).

(** The only exception a subscript raises. *)
Lemma getitem_raises r (col_index : Z) e :
  getitem r col_index = inl e → e = IndexError.
Proof.
  unfold getitem, raise.
  repeat case_match; intros; simplify_eq; done.
Qed.

(** A non-negative index is the position from the front. *)
Lemma getitem_nat r i :
  getitem r (Z.of_nat i) =
    match r !! i with Some v => inr v | None => raise IndexError end.
Proof.
  unfold getitem.
  destruct (Z.ltb_spec (Z.of_nat i) 0) as [|_]; [lia|].
  destruct (Z.ltb_spec (Z.of_nat i) 0) as [|_]; [lia|].
  by rewrite Nat2Z.id.
Qed.

Lemma getitem_nat_lt r i :
  i < length r → ∃ v, r !! i = Some v ∧ getitem r (Z.of_nat i) = inr v.
Proof.
  intros [v Hv]%lookup_lt_is_Some_2. exists v.
  by rewrite getitem_nat, Hv.
Qed.

Lemma getitem_nat_ge r i :
  length r ≤ i → getitem r (Z.of_nat i) = inl IndexError.
Proof.
  intros Hge%lookup_ge_None_2. by rewrite getitem_nat, Hge.
Qed.

(** A negative index [-k] is the position [len(r) - k]. *)
Lemma getitem_neg r k :
  1 ≤ k → k ≤ length r →
  ∃ v, r !! (length r - k) = Some v ∧ getitem r (- Z.of_nat k) = inr v.
Proof.
  intros H1 Hk.
  destruct (lookup_lt_is_Some_2 r (length r - k)) as [v Hv]; [lia|].
  exists v. split; [done|]. unfold getitem.
  destruct (Z.ltb_spec (- Z.of_nat k) 0) as [_|]; [|lia].
  destruct (Z.ltb_spec (Z.of_nat (length r) + - Z.of_nat k) 0) as [|_];
    [lia|].
  replace (Z.to_nat (Z.of_nat (length r) + - Z.of_nat k))
    with (length r - k) by lia.
  by rewrite Hv.
Qed.
End getitem.

(** ** The set of a column *)

Section set_of_column.
Implicit Types (reader rows : list row) (acc s : gset string).

(** When every subscript succeeds, the set holds the values collected
    before and the value of every row, and nothing else. *)
Lemma set_of_column_inr rows (col_index : Z) acc :
  Forall (λ r, ∃ v, getitem r col_index = inr v) rows →
  ∃ s, set_of_column rows col_index acc = inr s ∧
       ∀ v, v ∈ s ↔ v ∈ acc ∨ ∃ r, r ∈ rows ∧ getitem r col_index = inr v.
Proof.
  intros Hall. revert acc.
  induction Hall as [|r rows [v Hv] _ IH]; intros acc; simpl.
  - exists acc. split; [done|]. intros v. split; [by left|].
    intros [?|(r & Hr & _)]; [done|]. by apply elem_of_nil in Hr.
  - rewrite Hv. destruct (IH (acc ∪ {[ v ]})) as (s & -> & Hs).
    exists s. split; [done|]. intros v'. rewrite Hs, elem_of_union,
      elem_of_singleton. split.
    + intros [[?| ->]|(r' & Hr' & Hv')]; [by left| |].
      * right. exists r. split; [apply list_elem_of_here|done].
      * right. exists r'. split; [by apply list_elem_of_further|done].
    + intros [?|(r' & Hr' & Hv')]; [by left; left|].
      apply elem_of_cons in Hr' as [->|Hr'].
      * left; right. congruence.
      * right. by exists r'.
Qed.

(** One failing subscript fails the whole construction. *)
Lemma set_of_column_inl rows (col_index : Z) acc :
  Exists (λ r, getitem r col_index = inl IndexError) rows →
  set_of_column rows col_index acc = inl IndexError.
Proof.
  intros Hex. revert acc.
  induction Hex as [r rows Hr|r rows _ IH]; intros acc; simpl.
  - by rewrite Hr.
  - destruct (getitem r col_index) as [e|v] eqn:Hv; [|apply IH].
    by rewrite (getitem_raises _ _ _ Hv).
Qed.

(** The order of the rows does not matter, neither for the set nor for
    the failure. *)
Lemma set_of_column_Permutation rows rows' (col_index : Z) acc :
  rows ≡ₚ rows' →
  set_of_column rows col_index acc = set_of_column rows' col_index acc.
Proof.
  intros Hperm. revert acc.
  induction Hperm
    as [|r rows rows' _ IH|r1 r2 rows|rows1 rows2 rows3 _ IH1 _ IH2];
    intros acc; simpl.
  - done.
  - destruct (getitem r col_index); [done|apply IH].
  - destruct (getitem r1 col_index) as [e1|v1] eqn:H1,
      (getitem r2 col_index) as [e2|v2] eqn:H2; try done.
    + by rewrite (getitem_raises _ _ _ H1), (getitem_raises _ _ _ H2).
    + by rewrite <-!(assoc_L (∪)), (comm_L (∪) {[ v2 ]}).
  - by rewrite IH1.
Qed.
End set_of_column.

(** ** Running [get_col_set] *)

Section get_col_set.
Implicit Types (w : world) (rows : list row) (header : row).

(** The call leaves the world as it found it. *)
Lemma get_col_set_world csv_filename (col_index : Z) w :
  (get_col_set csv_filename col_index w).2 = w.
Proof.
  unfold get_col_set, mbind, py_bind, open_reader, lift.
  by destruct (files w !! csv_filename).
Qed.

(** On a file with a header row, the result is the set of the column over
    the rows after the header. *)
Lemma get_col_set_table csv_filename (col_index : Z) w header rows :
  files w !! csv_filename = Some (header :: rows) →
  get_col_set csv_filename col_index w =
    (set_of_column rows col_index ∅, w).
Proof.
  intros Hfile.
  unfold get_col_set, mbind, py_bind, open_reader, lift. by rewrite Hfile.
Qed.

(** The result depends on the files only. *)
Lemma get_col_set_files csv_filename (col_index : Z) w w' :
  files w = files w' →
  (get_col_set csv_filename col_index w).1 =
    (get_col_set csv_filename col_index w').1.
Proof.
  intros Hfiles.
  unfold get_col_set, mbind, py_bind, open_reader, lift. rewrite Hfiles.
  by destruct (files w' !! csv_filename).
Qed.

(** When the subscript of every data row succeeds and reads position
    [pos r] of the row [r], the call returns the set of the fields at these
    positions. *)
Lemma get_col_set_fields csv_filename (col_index : Z) w header rows
    (pos : row → nat) :
  files w !! csv_filename = Some (header :: rows) →
  Forall (λ r, ∃ v, r !! pos r = Some v ∧ getitem r col_index = inr v) rows →
  ∃ s : gset string,
    get_col_set csv_filename col_index w = (inr s, w) ∧
    ∀ v, v ∈ s ↔ ∃ r, r ∈ rows ∧ r !! pos r = Some v.
Proof.
  intros Hfile Hrows.
  destruct (set_of_column_inr rows col_index ∅) as (s & Hs & Hmem).
  { eapply Forall_impl; [exact Hrows|]. intros r (v & _ & Hv). by exists v. }
  exists s. split; [by rewrite (get_col_set_table _ _ _ _ _ Hfile), Hs|].
  intros v. rewrite Hmem. split.
  - intros [Hv|(r & Hr & Hv)]; [by apply not_elem_of_empty in Hv|].
    exists r. split; [done|].
    rewrite Forall_forall in Hrows.
    destruct (Hrows r Hr) as (v' & Hpos & Hv'). congruence.
  - intros (r & Hr & Hv). right. exists r. split; [done|].
    rewrite Forall_forall in Hrows.
    destruct (Hrows r Hr) as (v' & Hpos & Hv'). congruence.
Qed.

(** The count and the maximum follow the result of the call. *)
Lemma num_unique_values_run csv_filename (i : Z) w :
  num_unique_values csv_filename i w =
    (size <$> (get_col_set csv_filename i w).1, w).
Proof.
  unfold num_unique_values, mbind, py_bind.
  pose proof (get_col_set_world csv_filename i w) as Hw.
  destruct (get_col_set csv_filename i w) as [[e|s] w']; simpl in *;
    by subst.
Qed.

Lemma column_max_length_run csv_filename (col_index : Z) w :
  column_max_length csv_filename col_index w =
    ((get_col_set csv_filename col_index w).1 ≫= desc_max_length, w).
Proof.
  unfold column_max_length, mbind at 1, py_bind, lift.
  pose proof (get_col_set_world csv_filename col_index w) as Hw.
  destruct (get_col_set csv_filename col_index w) as [[e|s] w']; simpl in *;
    by subst.
Qed.
End get_col_set.

(** ** The maximum *)

Section py_max.
Implicit Types (xs ys : list nat) (s : gset string).

(** The running comparison computes the greatest item. *)
Lemma fold_left_max xs x :
  fold_left (λ m y, if m <? y then y else m) xs x = x `max` max_list xs.
Proof.
  revert x. induction xs as [|y xs IH]; intros x; simpl; [lia|].
  rewrite IH. destruct (Nat.ltb_spec x y); lia.
Qed.

Lemma py_max_cons x xs : py_max (x :: xs) = inr (max_list (x :: xs)).
Proof. unfold py_max. by rewrite fold_left_max. Qed.

Lemma py_max_nonempty xs : xs ≠ [] → py_max xs = inr (max_list xs).
Proof. destruct xs; [done|]. intros _. apply py_max_cons. Qed.

(** The order in which the items come does not matter. *)
Lemma py_max_Permutation xs ys : xs ≡ₚ ys → py_max xs = py_max ys.
Proof.
  intros Hperm. destruct xs as [|x xs].
  - by apply Permutation_nil_l in Hperm as ->.
  - destruct ys as [|y ys]; [by apply Permutation_nil_r in Hperm|].
    rewrite !py_max_cons. f_equal. by apply max_list_with_Permutation_proper.
Qed.

(** The greatest item of a non-empty list is one of its items. *)
Lemma max_list_attained xs : xs ≠ [] → max_list xs ∈ xs.
Proof.
  induction xs as [|x xs IH]; [done|]. intros _. simpl.
  destruct xs as [|y xs].
  - simpl. rewrite Nat.max_0_r. apply list_elem_of_here.
  - destruct (Nat.max_spec x (max_list (y :: xs))) as [[_ ->]|[_ ->]].
    + apply list_elem_of_further, IH. done.
    + apply list_elem_of_here.
Qed.

Lemma is_max_length_unique s m m' :
  is_max_length s m → is_max_length s m' → m = m'.
Proof.
  intros [(v & Hv & <-) Hle] [(v' & Hv' & <-) Hle'].
  apply Nat.le_antisymm; auto.
Qed.

Lemma desc_max_length_empty : desc_max_length ∅ = inl ValueError.
Proof. unfold desc_max_length. by rewrite elements_empty. Qed.

Lemma desc_max_length_is_max s :
  s ≠ ∅ → ∃ m, desc_max_length s = inr m ∧ is_max_length s m.
Proof.
  intros Hne. unfold desc_max_length.
  assert (String.length <$> elements s ≠ []) as Hxs.
  { intros Hnil%fmap_nil_inv.
    by apply elements_empty_inv, leibniz_equiv in Hnil. }
  exists (max_list (String.length <$> elements s)).
  split; [by apply py_max_nonempty|]. split.
  - apply max_list_attained, list_elem_of_fmap in Hxs as (v & Hv1 & Hv2).
    exists v. split; [by apply elem_of_elements|done].
  - intros v Hv. apply max_list_elem_of_le, list_elem_of_fmap.
    exists v. split; [done|by apply elem_of_elements].
Qed.

(** Whatever the order in which the set is iterated, the maximum is the
    same. *)
Lemma desc_max_length_any_order s (order : list string) :
  order ≡ₚ elements s →
  py_max (String.length <$> order) = desc_max_length s.
Proof.
  intros Hperm. unfold desc_max_length.
  by apply py_max_Permutation, fmap_Permutation.
Qed.
End py_max.

(** ** The loop over the columns *)

Section profiling_loop.
Implicit Types (w : world) (indices : list nat) (col_headers : row).

(** A world with the same files gives the same result. *)
Lemma get_col_set_same_files csv_filename (col_index : Z) w w' :
  files w = files w' →
  get_col_set csv_filename col_index w' =
    ((get_col_set csv_filename col_index w).1, w').
Proof.
  intros Hfiles.
  rewrite (get_col_set_files _ _ _ _ Hfiles).
  rewrite <-(get_col_set_world csv_filename col_index w') at 3.
  by destruct (get_col_set csv_filename col_index w').
Qed.

(** One round of the loop that succeeds prints one line. *)
Lemma profiling_loop_cons csv_filename col_headers i indices w name s :
  col_headers !! i = Some name →
  (get_col_set csv_filename (Z.of_nat i) w).1 = inr s →
  profiling_loop csv_filename col_headers (i :: indices) w =
    profiling_loop csv_filename col_headers indices
      {| files := files w;
         stdout := stdout w ++ [column_line name (size s)] |}.
Proof.
  intros Hname Hs. simpl. unfold mbind, py_bind.
  rewrite num_unique_values_run, Hs. simpl.
  unfold lift. by rewrite getitem_nat, Hname.
Qed.

(** When every round succeeds, the loop prints one line per index, in the
    order of the indices, and changes nothing else. *)
Lemma profiling_loop_lines csv_filename col_headers indices w0 :
  Forall (λ i, ∃ name s, col_headers !! i = Some name ∧
            (get_col_set csv_filename (Z.of_nat i) w0).1 = inr s) indices →
  ∀ w, files w = files w0 →
  ∃ lines,
    profiling_loop csv_filename col_headers indices w =
      (inr (), {| files := files w0; stdout := stdout w ++ lines |}) ∧
    Forall2 (λ i line, ∃ name s, col_headers !! i = Some name ∧
               (get_col_set csv_filename (Z.of_nat i) w0).1 = inr s ∧
               line = column_line name (size s)) indices lines.
Proof.
  induction 1 as [|i indices (name & s & Hname & Hs) _ IH]; intros w Hw.
  - exists []. split; [|constructor].
    destruct w as [fs out]. simpl in *. subst fs.
    by rewrite app_nil_r.
  - destruct (IH {| files := files w;
                    stdout := stdout w ++ [column_line name (size s)] |} Hw)
      as (lines & Hrun & Hlines).
    exists (column_line name (size s) :: lines). split.
    + rewrite (profiling_loop_cons _ _ _ _ _ name s Hname).
      * rewrite Hrun. simpl. by rewrite <-app_assoc.
      * by rewrite (get_col_set_files _ _ w w0 Hw).
    + constructor; [|done]. by exists name, s.
Qed.

(** Whatever happens, the loop only appends lines to the output, and its
    result and these lines depend on the files alone. *)
Lemma profiling_loop_same_files csv_filename col_headers indices :
  ∀ w w', files w = files w' →
  ∃ r lines,
    profiling_loop csv_filename col_headers indices w =
      (r, {| files := files w; stdout := stdout w ++ lines |}) ∧
    profiling_loop csv_filename col_headers indices w' =
      (r, {| files := files w'; stdout := stdout w' ++ lines |}).
Proof.
  assert (∀ w, w = {| files := files w; stdout := stdout w ++ [] |}) as Heta.
  { intros [fs out]. simpl. by rewrite app_nil_r. }
  induction indices as [|i indices IH]; intros w w' Hw.
  - exists (inr ()), []. split; simpl; unfold mret, py_ret; f_equal;
      apply Heta.
  - destruct (get_col_set csv_filename (Z.of_nat i) w).1 as [e|s] eqn:Hs.
    { exists (inl e), []. simpl. unfold mbind, py_bind.
      rewrite !num_unique_values_run, <-(get_col_set_files _ _ _ _ Hw), Hs.
      simpl. split; f_equal; apply Heta. }
    destruct (col_headers !! i) as [name|] eqn:Hname.
    + destruct (IH
        {| files := files w;
           stdout := stdout w ++ [column_line name (size s)] |}
        {| files := files w';
           stdout := stdout w' ++ [column_line name (size s)] |} Hw)
        as (r & lines & Hrun & Hrun').
      exists r, (column_line name (size s) :: lines).
      rewrite (profiling_loop_cons _ _ _ _ w name s Hname Hs).
      rewrite (profiling_loop_cons _ _ _ _ w' name s Hname);
        [|by rewrite <-(get_col_set_files _ _ _ _ Hw)].
      rewrite Hrun, Hrun'. simpl. by rewrite <-!app_assoc.
    + exists (inl IndexError), []. simpl. unfold mbind, py_bind.
      rewrite !num_unique_values_run, <-(get_col_set_files _ _ _ _ Hw), Hs.
      simpl. unfold lift. rewrite getitem_nat, Hname.
      split; f_equal; apply Heta.
Qed.
End profiling_loop.

(** ** The running maximum *)

Section scan_running_max.
Implicit Types (rows : list row) (acc s : gset string) (m : nat).

(** The set only grows. *)
Lemma set_of_column_subseteq rows (col_index : Z) acc s :
  set_of_column rows col_index acc = inr s → acc ⊆ s.
Proof.
  revert acc. induction rows as [|r rows IH]; intros acc; simpl.
  - by intros [= ->].
  - destruct (getitem r col_index) as [e|v]; [done|].
    intros Hs%IH. etrans; [|exact Hs]. apply union_subseteq_l.
Qed.

(** With a data row, a set that is returned has a member. *)
Lemma set_of_column_nonempty r rows (col_index : Z) acc s :
  set_of_column (r :: rows) col_index acc = inr s → s ≠ ∅.
Proof.
  simpl. destruct (getitem r col_index) as [e|v]; [done|].
  intros Hs%set_of_column_subseteq ->.
  apply (not_elem_of_empty (C:=gset string) v), Hs, elem_of_union_r.
  by apply elem_of_singleton.
Qed.

Lemma running_inv_insert acc m v :
  running_inv acc m →
  is_max_length (acc ∪ {[ v ]}) (m `max` String.length v).
Proof.
  intros [[-> ->]|[(v0 & Hv0 & Hlen0) Hle]].
  - split.
    + exists v. split; [|lia].
      apply elem_of_union_r. by apply elem_of_singleton.
    + intros v' [Hv'|Hv']%elem_of_union; [by apply not_elem_of_empty in Hv'|].
      apply elem_of_singleton in Hv' as ->. lia.
  - split.
    + destruct (Nat.max_spec m (String.length v)) as [[_ ->]|[_ ->]].
      * exists v. split; [|done].
        apply elem_of_union_r. by apply elem_of_singleton.
      * exists v0. split; [|done]. by apply elem_of_union_l.
    + intros v' [Hv'|Hv']%elem_of_union.
      * specialize (Hle v' Hv'). lia.
      * apply elem_of_singleton in Hv' as ->. lia.
Qed.

(** The scan builds the set that [set_of_column] builds, fails where it
    fails, and ends with the maximum length of that set. *)
Lemma scan_running_max_set rows (col_index : Z) acc m :
  running_inv acc m →
  match set_of_column rows col_index acc with
  | inl e => scan_running_max rows col_index acc m = inl e
  | inr s => ∃ m', scan_running_max rows col_index acc m = inr (s, m') ∧
                   running_inv s m'
  end.
Proof.
  revert acc m. induction rows as [|r rows IH]; intros acc m Hinv; simpl.
  - by exists m.
  - destruct (getitem r col_index) as [e|v]; [done|].
    apply IH. right. by apply running_inv_insert.
Qed.
End scan_running_max.

(** ** The distinct values of a column *)

(** C1. On a file with a header row, for a column index that every data row
    has, [get_col_set] returns the set whose members are exactly the fields
    at that index of the data rows; the header row contributes nothing, and
    the count is the size of that set.  On the table with header [day] and
    rows [Mon], [Tue], [Mon] the set is [{Mon, Tue}] and the count 2. *)
Theorem get_col_set_distinct_values :
  (∀ (w : world) (csv_filename : string) (header : row) (rows : list row)
     (col_index : nat),
     files w !! csv_filename = Some (header :: rows) →
     Forall (λ r, col_index < length r) rows →
     ∃ s : gset string,
       get_col_set csv_filename (Z.of_nat col_index) w = (inr s, w) ∧
       (∀ v, v ∈ s ↔ ∃ r, r ∈ rows ∧ r !! col_index = Some v) ∧
       num_unique_values csv_filename (Z.of_nat col_index) w
         = (inr (size s), w)) ∧
  (get_col_set "boston.csv" 0 (disk day_csv)
     = (inr {[ "Mon"; "Tue" ]}, disk day_csv) ∧
   num_unique_values "boston.csv" 0 (disk day_csv) = (inr 2, disk day_csv)).
Proof.
  split; [|by vm_compute].
  intros w csv_filename header rows col_index Hfile Hrows.
  destruct (get_col_set_fields csv_filename (Z.of_nat col_index) w header
              rows (λ _, col_index) Hfile) as (s & Hs & Hmem).
  { eapply Forall_impl; [exact Hrows|]. intros r Hr.
    by apply getitem_nat_lt. }
  exists s. split; [done|]. split; [done|].
  by rewrite num_unique_values_run, Hs.
Qed.

Lemma get_col_set_distinct_values_witness :
  ∃ s : gset string,
    get_col_set "boston.csv" 0 (disk day_csv) = (inr s, disk day_csv) ∧
    (∀ v, v ∈ s ↔
       ∃ r, r ∈ [["Mon"]; ["Tue"]; ["Mon"]] ∧ r !! 0 = Some v) ∧
    num_unique_values "boston.csv" 0 (disk day_csv)
      = (inr (size s), disk day_csv).
Proof.
  apply (proj1 get_col_set_distinct_values (disk day_csv) "boston.csv"
           ["day"] [["Mon"]; ["Tue"]; ["Mon"]] 0).
  - reflexivity.
  - repeat constructor.
Defined.

(** C10. A negative index [-k] is accepted when every data row has at least
    [k] fields: the call raises nothing and returns the set of the fields
    at position [len(row) - k] of the data rows. *)
Theorem get_col_set_negative_index (w : world) (csv_filename : string)
    (header : row) (rows : list row) (k : nat) :
  files w !! csv_filename = Some (header :: rows) →
  1 ≤ k →
  Forall (λ r, k ≤ length r) rows →
  ∃ s : gset string,
    get_col_set csv_filename (- Z.of_nat k) w = (inr s, w) ∧
    ∀ v, v ∈ s ↔ ∃ r, r ∈ rows ∧ r !! (length r - k) = Some v.
Proof.
  intros Hfile Hk Hrows.
  apply (get_col_set_fields csv_filename (- Z.of_nat k) w header rows
           (λ r, length r - k) Hfile).
  eapply Forall_impl; [exact Hrows|]. intros r Hr.
  by apply getitem_neg.
Qed.

Lemma get_col_set_negative_index_witness :
  ∃ s : gset string,
    get_col_set "boston.csv" (-1) (disk desc_csv) = (inr s, disk desc_csv) ∧
    ∀ v, v ∈ s ↔
      ∃ r, r ∈ [["1"; "LARCENY"]; ["2"; "VANDALISM"]; ["3"; "LARCENY"]] ∧
           r !! (length r - 1) = Some v.
Proof.
  apply (get_col_set_negative_index (disk desc_csv) "boston.csv"
           ["id"; "desc"]
           [["1"; "LARCENY"]; ["2"; "VANDALISM"]; ["3"; "LARCENY"]] 1).
  - reflexivity.
  - lia.
  - repeat constructor.
Defined.

(** ** The longest value of a column *)

(** C2. For a column with at least one data row, the computed maximum is
    the length of a longest string of the column's set of distinct values.
    On the table with header [id, desc] and rows [1, LARCENY],
    [2, VANDALISM], [3, LARCENY], column 1 has 2 distinct values and
    maximum length 9. *)
Theorem column_max_length_longest :
  (∀ (w : world) (csv_filename : string) (header : row) (rows : list row)
     (col_index : nat),
     files w !! csv_filename = Some (header :: rows) →
     rows ≠ [] →
     Forall (λ r, col_index < length r) rows →
     ∃ (s : gset string) (m : nat),
       get_col_set csv_filename (Z.of_nat col_index) w = (inr s, w) ∧
       column_max_length csv_filename (Z.of_nat col_index) w = (inr m, w) ∧
       is_max_length s m) ∧
  (num_unique_values "boston.csv" 1 (disk desc_csv)
     = (inr 2, disk desc_csv) ∧
   column_max_length "boston.csv" 1 (disk desc_csv)
     = (inr 9, disk desc_csv)).
Proof.
  split; [|by vm_compute].
  intros w csv_filename header rows col_index Hfile Hne Hrows.
  destruct (get_col_set_fields csv_filename (Z.of_nat col_index) w header
              rows (λ _, col_index) Hfile) as (s & Hs & Hmem).
  { eapply Forall_impl; [exact Hrows|]. intros r Hr.
    by apply getitem_nat_lt. }
  assert (s ≠ ∅) as Hs_ne.
  { destruct rows as [|r rows]; [done|].
    apply Forall_cons_1 in Hrows as [Hr _].
    apply lookup_lt_is_Some_2 in Hr as [v Hv].
    intros ->. apply (not_elem_of_empty (C:=gset string) v), Hmem.
    exists r. split; [apply list_elem_of_here|done]. }
  destruct (desc_max_length_is_max s Hs_ne) as (m & Hm & Hmax).
  exists s, m. split; [done|]. split; [|done].
  rewrite column_max_length_run, Hs. simpl. by rewrite Hm.
Qed.

Lemma column_max_length_longest_witness :
  ∃ (s : gset string) (m : nat),
    get_col_set "boston.csv" 1 (disk desc_csv) = (inr s, disk desc_csv) ∧
    column_max_length "boston.csv" 1 (disk desc_csv)
      = (inr m, disk desc_csv) ∧
    is_max_length s m.
Proof.
  apply (proj1 column_max_length_longest (disk desc_csv) "boston.csv"
           ["id"; "desc"]
           [["1"; "LARCENY"]; ["2"; "VANDALISM"]; ["3"; "LARCENY"]] 1).
  - reflexivity.
  - discriminate.
  - repeat constructor.
Defined.

(** ** A table without data rows *)

(** C4, as claimed, fails: on a file that holds only a header the maximum
    is not 0, the computation raises [ValueError]. *)
Lemma header_only_max_length_counterexample :
  files (disk header_only_csv) !! "boston.csv" = Some [["id"; "desc"]] ∧
  column_max_length "boston.csv" 0 (disk header_only_csv)
    = (inl ValueError, disk header_only_csv) ∧
  column_max_length "boston.csv" 0 (disk header_only_csv)
    ≠ (inr 0, disk header_only_csv).
Proof. split; [reflexivity|]. split; [by vm_compute|]. by vm_compute. Qed.

(** C4, amended. On a file that holds only a header, for every index of a
    header column, [get_col_set] succeeds with the empty set, the count is
    0, and the maximum over the empty set raises [ValueError]. *)
Theorem header_only_profile (w : world) (csv_filename : string)
    (header : row) (col_index : nat) :
  files w !! csv_filename = Some [header] →
  col_index < length header →
  get_col_set csv_filename (Z.of_nat col_index) w = (inr ∅, w) ∧
  num_unique_values csv_filename (Z.of_nat col_index) w = (inr 0, w) ∧
  column_max_length csv_filename (Z.of_nat col_index) w
    = (inl ValueError, w).
Proof.
  intros Hfile _.
  pose proof (get_col_set_table csv_filename (Z.of_nat col_index) w header
                [] Hfile) as Hs. simpl in Hs.
  split; [done|]. split.
  - rewrite num_unique_values_run, Hs. unfold fmap, result_fmap, fst.
    by rewrite size_empty.
  - rewrite column_max_length_run, Hs. simpl.
    by rewrite desc_max_length_empty.
Qed.

Lemma header_only_profile_witness :
  get_col_set "boston.csv" 1 (disk header_only_csv)
    = (inr ∅, disk header_only_csv) ∧
  num_unique_values "boston.csv" 1 (disk header_only_csv)
    = (inr 0, disk header_only_csv) ∧
  column_max_length "boston.csv" 1 (disk header_only_csv)
    = (inl ValueError, disk header_only_csv).
Proof.
  apply (header_only_profile (disk header_only_csv) "boston.csv"
           ["id"; "desc"] 1).
  - reflexivity.
  - simpl. lia.
Defined.

(** ** Failing subscripts *)

(** C5, as claimed, fails: the header row is skipped unread, so an index
    beyond the header raises nothing when there is no data row, or when the
    data rows are long enough. *)
Lemma index_beyond_header_counterexample :
  length ["id"; "desc"] ≤ 5 ∧
  get_col_set "boston.csv" 5 (disk header_only_csv)
    = (inr ∅, disk header_only_csv) ∧
  get_col_set "boston.csv" 5 (disk long_rows_csv)
    = (inr {[ "Sunday" ]}, disk long_rows_csv).
Proof. split; [simpl; lia|]. split; by vm_compute. Qed.

(** C5, amended. When the file has at least one data row and no data row
    has more fields than the header, an index not less than the number of
    header columns makes [get_col_set] raise [IndexError].  With a header of
    2 columns, rows of 2 fields and index 5 the call raises [IndexError]. *)
Theorem index_beyond_rows_raises :
  (∀ (w : world) (csv_filename : string) (header : row) (rows : list row)
     (col_index : nat),
     files w !! csv_filename = Some (header :: rows) →
     rows ≠ [] →
     Forall (λ r, length r ≤ length header) rows →
     length header ≤ col_index →
     get_col_set csv_filename (Z.of_nat col_index) w
       = (inl IndexError, w)) ∧
  get_col_set "boston.csv" 5 (disk desc_csv) = (inl IndexError, disk desc_csv).
Proof.
  split; [|by vm_compute].
  intros w csv_filename header rows col_index Hfile Hne Hrows Hidx.
  rewrite (get_col_set_table _ _ _ _ _ Hfile).
  rewrite set_of_column_inl; [done|].
  destruct rows as [|r rows]; [done|].
  apply Forall_cons_1 in Hrows as [Hr _].
  apply Exists_cons_hd, getitem_nat_ge. lia.
Qed.

Lemma index_beyond_rows_raises_witness :
  get_col_set "boston.csv" 5 (disk desc_csv) = (inl IndexError, disk desc_csv).
Proof.
  apply (proj1 index_beyond_rows_raises (disk desc_csv) "boston.csv"
           ["id"; "desc"]
           [["1"; "LARCENY"]; ["2"; "VANDALISM"]; ["3"; "LARCENY"]] 5).
  - reflexivity.
  - discriminate.
  - repeat constructor.
  - simpl. lia.
Defined.

(** C6. When some data row has fewer than [col_index + 1] fields, for an
    index of a header column, [get_col_set] raises [IndexError], the
    exception of a subscript out of range; the failed call returns no set,
    hence no count and no maximum either, and leaves the world untouched.
    With a header of 2 columns, a data row of 1 field and index 1 the call
    raises. *)
Theorem short_row_raises :
  (∀ (w : world) (csv_filename : string) (header : row) (rows : list row)
     (col_index : nat),
     files w !! csv_filename = Some (header :: rows) →
     col_index < length header →
     Exists (λ r, length r < col_index + 1) rows →
     get_col_set csv_filename (Z.of_nat col_index) w = (inl IndexError, w) ∧
     num_unique_values csv_filename (Z.of_nat col_index) w
       = (inl IndexError, w) ∧
     column_max_length csv_filename (Z.of_nat col_index) w
       = (inl IndexError, w)) ∧
  get_col_set "boston.csv" 1 (disk short_row_csv)
    = (inl IndexError, disk short_row_csv).
Proof.
  split; [|by vm_compute].
  intros w csv_filename header rows col_index Hfile _ Hshort.
  assert (get_col_set csv_filename (Z.of_nat col_index) w
            = (inl IndexError, w)) as Hs.
  { rewrite (get_col_set_table _ _ _ _ _ Hfile).
    rewrite set_of_column_inl; [done|].
    eapply Exists_impl; [exact Hshort|]. intros r Hr. simpl in Hr.
    apply getitem_nat_ge. lia. }
  split; [done|]. split.
  - by rewrite num_unique_values_run, Hs.
  - by rewrite column_max_length_run, Hs.
Qed.

Lemma short_row_raises_witness :
  get_col_set "boston.csv" 1 (disk short_row_csv)
    = (inl IndexError, disk short_row_csv) ∧
  num_unique_values "boston.csv" 1 (disk short_row_csv)
    = (inl IndexError, disk short_row_csv) ∧
  column_max_length "boston.csv" 1 (disk short_row_csv)
    = (inl IndexError, disk short_row_csv).
Proof.
  apply (proj1 short_row_raises (disk short_row_csv) "boston.csv"
           ["id"; "desc"] [["1"; "LARCENY"]; ["2"]] 1).
  - reflexivity.
  - simpl. lia.
  - apply Exists_cons_tl, Exists_cons_hd. simpl. lia.
Defined.

(** ** The profile of every column *)

(** C3. On a file with a header row in which every data row has at least as
    many fields as the header, the loop over the columns succeeds and prints
    as many lines as the header has columns; line [i] names header column
    [i] and gives the number of distinct values of column [i]. *)
Theorem profile_columns_in_header_order (w : world) (csv_filename : string)
    (header : row) (rows : list row) :
  files w !! csv_filename = Some (header :: rows) →
  Forall (λ r, length header ≤ length r) rows →
  ∃ lines : list string,
    profile_columns csv_filename header w =
      (inr (), {| files := files w; stdout := stdout w ++ lines |}) ∧
    length lines = length header ∧
    ∀ (i : nat) (name : string), header !! i = Some name →
      ∃ s : gset string,
        get_col_set csv_filename (Z.of_nat i) w = (inr s, w) ∧
        lines !! i = Some (column_line name (size s)).
Proof.
  intros Hfile Hrows.
  assert (∀ i name, header !! i = Some name →
            ∃ s, get_col_set csv_filename (Z.of_nat i) w = (inr s, w))
    as Hcol.
  { intros i name Hname%lookup_lt_Some.
    destruct (get_col_set_fields csv_filename (Z.of_nat i) w header rows
                (λ _, i) Hfile) as (s & Hs & _); [|by exists s].
    eapply Forall_impl; [exact Hrows|]. intros r Hr. simpl in Hr.
    apply getitem_nat_lt. lia. }
  destruct (profiling_loop_lines csv_filename header
              (seq 0 (length header)) w) with (w := w)
    as (lines & Hrun & Hlines); [|done|].
  { apply Forall_forall. intros i [_ Hi]%elem_of_seq.
    destruct (lookup_lt_is_Some_2 header i) as [name Hname]; [lia|].
    destruct (Hcol i name Hname) as [s Hs].
    exists name, s. by rewrite Hs. }
  exists lines. split; [done|].
  pose proof (Forall2_length _ _ _ Hlines) as Hlen.
  rewrite length_seq in Hlen. split; [done|].
  intros i name Hname.
  destruct (Hcol i name Hname) as [s Hs]. exists s. split; [done|].
  assert (seq 0 (length header) !! i = Some i) as Hi.
  { apply lookup_seq. split; [done|]. by apply lookup_lt_Some in Hname. }
  destruct (Forall2_lookup_l _ _ _ _ _ Hlines Hi)
    as (line & Hline & name' & s' & Hname' & Hs' & ->).
  rewrite Hs in Hs'. simpl in Hs'. by simplify_eq.
Qed.

Lemma profile_columns_in_header_order_witness :
  ∃ lines : list string,
    profile_columns "boston.csv" ["id"; "desc"] (disk desc_csv) =
      (inr (), {| files := files (disk desc_csv);
                  stdout := stdout (disk desc_csv) ++ lines |}) ∧
    length lines = length ["id"; "desc"] ∧
    ∀ (i : nat) (name : string), ["id"; "desc"] !! i = Some name →
      ∃ s : gset string,
        get_col_set "boston.csv" (Z.of_nat i) (disk desc_csv)
          = (inr s, disk desc_csv) ∧
        lines !! i = Some (column_line name (size s)).
Proof.
  apply (profile_columns_in_header_order (disk desc_csv) "boston.csv"
           ["id"; "desc"]
           [["1"; "LARCENY"]; ["2"; "VANDALISM"]; ["3"; "LARCENY"]]).
  - reflexivity.
  - repeat constructor.
Defined.

(** ** Order of the rows and repeated runs *)

(** C7. Two files with the same header whose data rows are a permutation of
    each other give, for every column index, the same outcome of
    [get_col_set] (the same set, or the same exception), the same count and
    the same maximum length. *)
Theorem profile_row_order_independent (w w' : world)
    (csv_filename : string) (header : row) (rows rows' : list row)
    (col_index : Z) :
  files w !! csv_filename = Some (header :: rows) →
  files w' !! csv_filename = Some (header :: rows') →
  rows ≡ₚ rows' →
  (get_col_set csv_filename col_index w).1
    = (get_col_set csv_filename col_index w').1 ∧
  (num_unique_values csv_filename col_index w).1
    = (num_unique_values csv_filename col_index w').1 ∧
  (column_max_length csv_filename col_index w).1
    = (column_max_length csv_filename col_index w').1.
Proof.
  intros Hfile Hfile' Hperm.
  assert ((get_col_set csv_filename col_index w).1
            = (get_col_set csv_filename col_index w').1) as Hs.
  { rewrite (get_col_set_table _ _ _ _ _ Hfile),
      (get_col_set_table _ _ _ _ _ Hfile'). simpl.
    by apply set_of_column_Permutation. }
  split; [done|]. split.
  - rewrite !num_unique_values_run. simpl. by rewrite Hs.
  - rewrite !column_max_length_run. simpl. by rewrite Hs.
Qed.

Lemma profile_row_order_independent_witness :
  (get_col_set "boston.csv" 0 (disk day_csv)).1
    = (get_col_set "boston.csv" 0
         (disk [["day"]; ["Tue"]; ["Mon"]; ["Mon"]])).1 ∧
  (num_unique_values "boston.csv" 0 (disk day_csv)).1
    = (num_unique_values "boston.csv" 0
         (disk [["day"]; ["Tue"]; ["Mon"]; ["Mon"]])).1 ∧
  (column_max_length "boston.csv" 0 (disk day_csv)).1
    = (column_max_length "boston.csv" 0
         (disk [["day"]; ["Tue"]; ["Mon"]; ["Mon"]])).1.
Proof.
  apply (profile_row_order_independent (disk day_csv)
           (disk [["day"]; ["Tue"]; ["Mon"]; ["Mon"]]) "boston.csv" ["day"]
           [["Mon"]; ["Tue"]; ["Mon"]] [["Tue"]; ["Mon"]; ["Mon"]] 0).
  - reflexivity.
  - reflexivity.
  - apply perm_swap.
Defined.

(** C8. A call reads the files and keeps nothing: [get_col_set] and the
    maximum computed from it leave the world as it was, so that a second
    call has the same outcome as the first; the loop over the columns only
    appends its lines to the output, and a second run has the same result
    and appends the same lines again. *)
Theorem profiling_repeatable (w : world) (csv_filename : string)
    (col_index : Z) (col_headers : row) :
  (let run1 := get_col_set csv_filename col_index w in
   let run2 := get_col_set csv_filename col_index run1.2 in
   run1.2 = w ∧ run2 = run1) ∧
  (let run1 := column_max_length csv_filename col_index w in
   let run2 := column_max_length csv_filename col_index run1.2 in
   run1.2 = w ∧ run2 = run1) ∧
  (let run1 := profile_columns csv_filename col_headers w in
   let run2 := profile_columns csv_filename col_headers run1.2 in
   ∃ lines : list string,
     run1.2 = {| files := files w; stdout := stdout w ++ lines |} ∧
     run2.1 = run1.1 ∧
     run2.2 = {| files := files w; stdout := stdout run1.2 ++ lines |}).
Proof.
  split; [|split]; cbv zeta.
  - by rewrite get_col_set_world.
  - by rewrite !column_max_length_run.
  - destruct (profiling_loop_same_files csv_filename col_headers
                (seq 0 (length col_headers)) w
                (profile_columns csv_filename col_headers w).2)
      as (r & lines & Hrun & Hrun').
    { unfold profile_columns.
      destruct (profiling_loop_same_files csv_filename col_headers
                  (seq 0 (length col_headers)) w w eq_refl)
        as (r & lines & -> & _). done. }
    exists lines. unfold profile_columns in *.
    rewrite Hrun' at 1 2. rewrite Hrun. simpl. done.
Qed.

(** ** One pass or two *)

(** C9, as claimed, fails: on a file that holds only a header the running
    maximum of the single pass is 0, while the second pass over the empty
    set raises [ValueError]. *)
Lemma running_max_header_only_counterexample :
  files (disk header_only_csv) !! "boston.csv" = Some [["id"; "desc"]] ∧
  spec_running_max_length "boston.csv" 0 (disk header_only_csv)
    = (inr 0, disk header_only_csv) ∧
  column_max_length "boston.csv" 0 (disk header_only_csv)
    = (inl ValueError, disk header_only_csv) ∧
  spec_running_max_length "boston.csv" 0 (disk header_only_csv)
    ≠ column_max_length "boston.csv" 0 (disk header_only_csv).
Proof.
  split; [reflexivity|]. split; [by vm_compute|]. split; by vm_compute.
Qed.

(** C9, amended. On a file with at least one data row, the running maximum
    kept during the row scan and the maximum taken in a second pass over
    the final set are the same, for every column index: both are the same
    length, or both raise the [IndexError] of a row that is too short. *)
Theorem running_max_agrees_with_second_pass (w : world)
    (csv_filename : string) (header : row) (rows : list row)
    (col_index : Z) :
  files w !! csv_filename = Some (header :: rows) →
  rows ≠ [] →
  spec_running_max_length csv_filename col_index w
    = column_max_length csv_filename col_index w.
Proof.
  intros Hfile Hne.
  rewrite column_max_length_run, (get_col_set_table _ _ _ _ _ Hfile).
  unfold spec_running_max_length, mbind at 1, py_bind, open_reader, lift.
  rewrite Hfile. simpl. f_equal.
  pose proof (scan_running_max_set rows col_index ∅ 0) as Hscan.
  destruct (set_of_column rows col_index ∅) as [e|s] eqn:Hs.
  - rewrite Hscan; [done|]. by left.
  - destruct Hscan as (m & -> & Hinv); [by left|]. simpl.
    destruct rows as [|r rows]; [done|].
    pose proof (set_of_column_nonempty _ _ _ _ _ Hs) as Hs_ne.
    destruct Hinv as [[-> _]|Hmax]; [done|].
    destruct (desc_max_length_is_max s Hs_ne) as (m' & -> & Hmax').
    unfold mret, result_ret. f_equal.
    by apply (is_max_length_unique s).
Qed.

Lemma running_max_agrees_with_second_pass_witness :
  spec_running_max_length "boston.csv" 1 (disk desc_csv)
    = column_max_length "boston.csv" 1 (disk desc_csv).
Proof.
  apply (running_max_agrees_with_second_pass (disk desc_csv) "boston.csv"
           ["id"; "desc"]
           [["1"; "LARCENY"]; ["2"; "VANDALISM"]; ["3"; "LARCENY"]] 1).
  - reflexivity.
  - discriminate.
Defined.

(** * Further properties of the cells *)

(** ** Outcomes of the subscript and of the set *)

Section outcomes.
Implicit Types (r : row) (rows : list row) (acc s : gset string).
Implicit Types (w : world) (col : list string).

(** A subscript succeeds exactly on the indices in range. *)
Lemma getitem_in_range r (i : Z) :
  in_range r i ↔ ∃ v, getitem r i = inr v.
Proof.
  unfold in_range, getitem. split.
  - intros [Hlo Hhi].
    destruct (Z.ltb_spec i 0).
    + destruct (Z.ltb_spec (Z.of_nat (length r) + i) 0); [lia|].
      destruct (lookup_lt_is_Some_2 r (Z.to_nat (Z.of_nat (length r) + i)))
        as [v ->]; [lia|]. by exists v.
    + destruct (Z.ltb_spec i 0); [lia|].
      destruct (lookup_lt_is_Some_2 r (Z.to_nat i)) as [v ->]; [lia|].
      by exists v.
  - intros [v Hv].
    destruct (Z.ltb_spec i 0).
    + destruct (Z.ltb_spec (Z.of_nat (length r) + i) 0); [done|].
      lia.
    + destruct (Z.ltb_spec i 0); [done|].
      destruct (r !! Z.to_nat i) eqn:Hr; [|done].
      apply lookup_lt_Some in Hr. lia.
Qed.

Lemma getitem_out_of_range r (i : Z) :
  ¬ in_range r i ↔ getitem r i = inl IndexError.
Proof.
  rewrite getitem_in_range. split.
  - intros Hno. destruct (getitem r i) as [e|v] eqn:Hv.
    + by rewrite (getitem_raises _ _ _ Hv).
    + destruct Hno. by exists v.
  - intros Hv [v Hv']. congruence.
Qed.

(** When every subscript succeeds, the set is that of the list of the
    values read. *)
Lemma set_of_column_list rows (i : Z) acc col :
  Forall2 (λ r v, getitem r i = inr v) rows col →
  set_of_column rows i acc = inr (acc ∪ list_to_set col).
Proof.
  intros Hcol. revert acc.
  induction Hcol as [|r v rows col Hv _ IH]; intros acc; simpl.
  - by rewrite (right_id_L ∅ (∪)).
  - by rewrite Hv, IH, (assoc_L (∪)).
Qed.

(** Either some subscript fails or there is such a list. *)
Lemma set_of_column_cases rows (i : Z) :
  Exists (λ r, ¬ in_range r i) rows ∨
  ∃ col, Forall2 (λ r v, getitem r i = inr v) rows col.
Proof.
  induction rows as [|r rows [Hex|[col Hcol]]].
  - right. exists []. constructor.
  - left. by apply Exists_cons_tl.
  - destruct (decide (in_range r i)) as [[v Hv]%getitem_in_range|Hr].
    + right. exists (v :: col). by constructor.
    + left. by apply Exists_cons_hd.
Qed.

Lemma set_of_column_out_of_range rows (i : Z) acc :
  Exists (λ r, ¬ in_range r i) rows →
  set_of_column rows i acc = inl IndexError.
Proof.
  intros Hex. apply set_of_column_inl.
  eapply Exists_impl; [exact Hex|]. intros r Hr.
  by apply getitem_out_of_range.
Qed.

(** The construction of the set raises nothing but [IndexError]. *)
Lemma set_of_column_raises rows (i : Z) acc e :
  set_of_column rows i acc = inl e →
  e = IndexError ∧ Exists (λ r, ¬ in_range r i) rows.
Proof.
  destruct (set_of_column_cases rows i) as [Hex|[col Hcol]].
  - rewrite (set_of_column_out_of_range _ _ _ Hex). by intros [= <-].
  - by rewrite (set_of_column_list _ _ _ _ Hcol).
Qed.

Lemma set_of_column_returns rows (i : Z) acc s :
  set_of_column rows i acc = inr s → Forall (λ r, in_range r i) rows.
Proof.
  destruct (set_of_column_cases rows i) as [Hex|[col Hcol]].
  - by rewrite (set_of_column_out_of_range _ _ _ Hex).
  - intros _. apply Forall_forall. intros r Hr.
    destruct (proj1 (list_elem_of_lookup _ _) Hr) as [k Hk].
    destruct (Forall2_lookup_l _ _ _ _ _ Hcol Hk) as (v & _ & Hv).
    apply getitem_in_range. by exists v.
Qed.

(** What the call does with each kind of file. *)
Lemma get_col_set_run csv_filename (i : Z) w :
  get_col_set csv_filename i w =
    (match files w !! csv_filename with
     | None => inl FileNotFoundError
     | Some [] => inl StopIteration
     | Some (_ :: rows) => set_of_column rows i ∅
     end, w).
Proof.
  unfold get_col_set, mbind, py_bind, open_reader, lift.
  by destruct (files w !! csv_filename) as [[|header rows]|].
Qed.
End outcomes.


(** X2. On a file with a header row, [get_col_set] returns a set exactly
    when the index is in range for every data row, that is between
    [-len(row)] and [len(row) - 1]. *)
Theorem get_col_set_returns_iff (w : world) (csv_filename : string)
    (header : row) (rows : list row) (col_index : Z) :
  files w !! csv_filename = Some (header :: rows) →
  (∃ s : gset string, get_col_set csv_filename col_index w = (inr s, w)) ↔
  Forall (λ r, in_range r col_index) rows.
Proof.
  intros Hfile. rewrite get_col_set_run, Hfile. split.
  - intros [s [= Hs]]. by apply set_of_column_returns in Hs.
  - intros Hrows.
    destruct (set_of_column rows col_index ∅) as [e|s] eqn:Hs;
      [|by exists s].
    destruct (set_of_column_raises _ _ _ _ Hs) as [_ Hex].
    apply Exists_exists in Hex as (r & Hr & Hout).
    rewrite Forall_forall in Hrows. by destruct Hout; apply Hrows.
Qed.

Lemma get_col_set_returns_iff_witness :
  (∃ s : gset string,
     get_col_set "boston.csv" (-2) (disk desc_csv) = (inr s, disk desc_csv)) ↔
  Forall (λ r, in_range r (-2))
    [["1"; "LARCENY"]; ["2"; "VANDALISM"]; ["3"; "LARCENY"]].
Proof.
  apply (get_col_set_returns_iff (disk desc_csv) "boston.csv"
           ["id"; "desc"]).
  reflexivity.
Defined.


(** ** Counting and combining *)

Section distinct.
Implicit Types (rows : list row) (col : list string) (s : gset string).

Lemma length_remove_dups_le col : length (remove_dups col) ≤ length col.
Proof.
  induction col as [|v col IH]; simpl; [done|].
  destruct (decide_rel (∈) v col); simpl; lia.
Qed.

Lemma length_remove_dups_NoDup col :
  length (remove_dups col) = length col ↔ NoDup col.
Proof.
  induction col as [|v col IH]; simpl.
  - split; [constructor|done].
  - pose proof (length_remove_dups_le col).
    destruct (decide_rel (∈) v col) as [Hin|Hin]; simpl.
    + split; [lia|]. by intros [? _]%NoDup_cons.
    + rewrite NoDup_cons. split.
      * intros [= Hlen]. split; [done|by apply IH].
      * intros [_ Hnd]. f_equal. by apply IH.
Qed.

Lemma size_list_to_set_remove_dups col :
  size (list_to_set (C:=gset string) col) = length (remove_dups col).
Proof.
  rewrite <-(size_list_to_set (C:=gset string) (remove_dups col))
    by apply NoDup_remove_dups.
  f_equal. apply set_eq. intros v.
  by rewrite !elem_of_list_to_set, elem_of_remove_dups.
Qed.

(** The accumulator is only added to. *)
Lemma set_of_column_acc rows (i : Z) acc :
  set_of_column rows i acc = (acc ∪.) <$> set_of_column rows i ∅.
Proof.
  destruct (set_of_column_cases rows i) as [Hex|[col Hcol]].
  - by rewrite !(set_of_column_out_of_range _ _ _ Hex).
  - rewrite !(set_of_column_list _ _ _ _ Hcol). simpl.
    by rewrite (left_id_L ∅ (∪)).
Qed.

(** Scanning two lists of rows one after the other. *)
Lemma set_of_column_app rows1 rows2 (i : Z) acc :
  set_of_column (rows1 ++ rows2) i acc =
    set_of_column rows1 i acc ≫= set_of_column rows2 i.
Proof.
  revert acc. induction rows1 as [|r rows1 IH]; intros acc; simpl; [done|].
  destruct (getitem r i); [done|apply IH].
Qed.

Lemma set_of_column_ext rows (i j : Z) acc :
  Forall (λ r, getitem r i = getitem r j) rows →
  set_of_column rows i acc = set_of_column rows j acc.
Proof.
  intros Hrows. revert acc.
  induction Hrows as [|r rows Hr _ IH]; intros acc; simpl; [done|].
  rewrite Hr. destruct (getitem r j); [done|apply IH].
Qed.

Lemma is_max_length_union s1 s2 m1 m2 :
  is_max_length s1 m1 → is_max_length s2 m2 →
  is_max_length (s1 ∪ s2) (m1 `max` m2).
Proof.
  intros [(v1 & Hv1 & Hm1) Hle1] [(v2 & Hv2 & Hm2) Hle2]. split.
  - destruct (Nat.max_spec m1 m2) as [[_ ->]|[_ ->]].
    + exists v2. split; [by apply elem_of_union_r|done].
    + exists v1. split; [by apply elem_of_union_l|done].
  - intros v [Hv|Hv]%elem_of_union.
    + specialize (Hle1 v Hv). lia.
    + specialize (Hle2 v Hv). lia.
Qed.

(** A maximum that is returned is the maximum length of the set. *)
Lemma desc_max_length_returns s m :
  desc_max_length s = inr m → s ≠ ∅ ∧ is_max_length s m.
Proof.
  intros Hm. assert (s ≠ ∅) as Hne.
  { intros ->. by rewrite desc_max_length_empty in Hm. }
  split; [done|].
  destruct (desc_max_length_is_max s Hne) as (m' & Hm' & Hmax).
  congruence.
Qed.
End distinct.

(** X4. For an index that every data row has, the number of unique values
    is the number of distinct entries of the column; it is at most the
    number of data rows, at least 1 when there is a data row, and equal to
    the number of data rows exactly when no value of the column repeats. *)
Theorem num_unique_values_counts_distinct (w : world)
    (csv_filename : string) (header : row) (rows : list row)
    (col_index : nat) (col : list string) :
  files w !! csv_filename = Some (header :: rows) →
  Forall2 (λ r v, r !! col_index = Some v) rows col →
  ∃ n : nat,
    num_unique_values csv_filename (Z.of_nat col_index) w = (inr n, w) ∧
    n = length (remove_dups col) ∧
    n ≤ length rows ∧
    (rows ≠ [] → 1 ≤ n) ∧
    (n = length rows ↔ NoDup col).
Proof.
  intros Hfile Hcol.
  assert (Forall2 (λ r v, getitem r (Z.of_nat col_index) = inr v) rows col)
    as Hget.
  { eapply Forall2_impl; [exact Hcol|]. intros r v Hv. simpl in Hv.
    by rewrite getitem_nat, Hv. }
  pose proof (Forall2_length _ _ _ Hcol) as Hlen.
  exists (length (remove_dups col)). split; [|split; [done|split; [|split]]].
  - rewrite num_unique_values_run, get_col_set_run, Hfile.
    rewrite (set_of_column_list _ _ _ _ Hget), (left_id_L ∅ (∪)).
    unfold fmap, result_fmap, fst.
    by rewrite size_list_to_set_remove_dups.
  - rewrite Hlen. apply length_remove_dups_le.
  - intros Hne. destruct Hcol as [|r v rows col _ _]; [done|].
    simpl. destruct (decide_rel (∈) v col) as [Hin|Hin]; simpl; [|lia].
    apply elem_of_remove_dups in Hin.
    destruct (remove_dups col); [by apply elem_of_nil in Hin|simpl; lia].
  - rewrite Hlen. apply length_remove_dups_NoDup.
Qed.

Lemma num_unique_values_counts_distinct_witness :
  ∃ n : nat,
    num_unique_values "boston.csv" 1 (disk desc_csv)
      = (inr n, disk desc_csv) ∧
    n = length (remove_dups ["LARCENY"; "VANDALISM"; "LARCENY"]) ∧
    n ≤ length [["1"; "LARCENY"]; ["2"; "VANDALISM"]; ["3"; "LARCENY"]] ∧
    ([["1"; "LARCENY"]; ["2"; "VANDALISM"]; ["3"; "LARCENY"]] ≠ []
       → 1 ≤ n) ∧
    (n = length [["1"; "LARCENY"]; ["2"; "VANDALISM"]; ["3"; "LARCENY"]]
       ↔ NoDup ["LARCENY"; "VANDALISM"; "LARCENY"]).
Proof.
  apply (num_unique_values_counts_distinct (disk desc_csv) "boston.csv"
           ["id"; "desc"]
           [["1"; "LARCENY"]; ["2"; "VANDALISM"]; ["3"; "LARCENY"]] 1).
  - reflexivity.
  - repeat constructor.
Defined.

(** X5. A file that holds the data rows of two files one after the other:
    when [get_col_set] returns a set for each of the two, it returns their
    union for the combined file, and the maximum length for the combined
    file is the greater of the two maximum lengths. *)
Theorem get_col_set_of_appended_rows (w : world)
    (part1 part2 whole : string) (header1 header2 header : row)
    (rows1 rows2 : list row) (col_index : Z) (s1 s2 : gset string) :
  files w !! part1 = Some (header1 :: rows1) →
  files w !! part2 = Some (header2 :: rows2) →
  files w !! whole = Some (header :: rows1 ++ rows2) →
  get_col_set part1 col_index w = (inr s1, w) →
  get_col_set part2 col_index w = (inr s2, w) →
  get_col_set whole col_index w = (inr (s1 ∪ s2), w) ∧
  ∀ m1 m2 : nat,
    column_max_length part1 col_index w = (inr m1, w) →
    column_max_length part2 col_index w = (inr m2, w) →
    column_max_length whole col_index w = (inr (m1 `max` m2), w).
Proof.
  intros Hfile1 Hfile2 Hfile.
  rewrite !column_max_length_run, !get_col_set_run, Hfile1, Hfile2, Hfile.
  intros [= Hs1] [= Hs2].
  assert (set_of_column (rows1 ++ rows2) col_index ∅ = inr (s1 ∪ s2)) as Hs.
  { rewrite set_of_column_app, Hs1. simpl.
    by rewrite set_of_column_acc, Hs2. }
  rewrite Hs, Hs1, Hs2. split; [done|]. simpl.
  intros m1 m2 [= [_ Hm1]%desc_max_length_returns]
    [= [Hne2 Hm2]%desc_max_length_returns].
  destruct (desc_max_length_is_max (s1 ∪ s2)) as (m & -> & Hm).
  { intros Hempty. apply Hne2. apply empty_union_L in Hempty. tauto. }
  do 2 f_equal.
  apply (is_max_length_unique (s1 ∪ s2)); [done|].
  by apply is_max_length_union.
Qed.

Lemma get_col_set_of_appended_rows_witness :
  get_col_set "boston.csv" 1 two_parts
    = (inr ({[ "LARCENY" ]} ∪ {[ "VANDALISM"; "LARCENY" ]}), two_parts) ∧
  ∀ m1 m2 : nat,
    column_max_length "jan.csv" 1 two_parts = (inr m1, two_parts) →
    column_max_length "feb.csv" 1 two_parts = (inr m2, two_parts) →
    column_max_length "boston.csv" 1 two_parts
      = (inr (m1 `max` m2), two_parts).
Proof.
  apply (get_col_set_of_appended_rows two_parts "jan.csv" "feb.csv"
           "boston.csv" ["id"; "desc"] ["id"; "desc"] ["id"; "desc"]
           [["1"; "LARCENY"]] [["2"; "VANDALISM"]; ["3"; "LARCENY"]] 1).
  - by vm_compute.
  - by vm_compute.
  - by vm_compute.
  - by vm_compute.
  - by vm_compute.
Defined.

(** X6. The outcome of [get_col_set] depends only on which data rows occur
    in the file: two files whose data rows are the same up to order and
    repetition give the same set, or the same exception, also when their
    header rows differ. *)
Theorem get_col_set_same_data_rows (w w' : world) (csv_filename : string)
    (header header' : row) (rows rows' : list row) (col_index : Z) :
  files w !! csv_filename = Some (header :: rows) →
  files w' !! csv_filename = Some (header' :: rows') →
  (∀ r, r ∈ rows ↔ r ∈ rows') →
  (get_col_set csv_filename col_index w).1
    = (get_col_set csv_filename col_index w').1.
Proof.
  intros Hfile Hfile' Hsame.
  rewrite !get_col_set_run, Hfile, Hfile'. simpl.
  destruct (decide (Forall (λ r, in_range r col_index) rows)) as [Hin|Hex].
  - assert (Forall (λ r, ∃ v, getitem r col_index = inr v) rows) as Hall.
    { eapply Forall_impl; [exact Hin|]. intros r Hr.
      by apply getitem_in_range. }
    assert (Forall (λ r, ∃ v, getitem r col_index = inr v) rows') as Hall'.
    { rewrite Forall_forall in Hall |- *. intros r Hr.
      by apply Hall, Hsame. }
    destruct (set_of_column_inr _ _ ∅ Hall) as (s & -> & Hs).
    destruct (set_of_column_inr _ _ ∅ Hall') as (s' & -> & Hs').
    f_equal. apply set_eq. intros v. rewrite Hs, Hs'.
    split; (intros [?|(r & Hr & Hv)]; [by left|]);
      right; exists r; (split; [by apply Hsame|done]).
  - apply not_Forall_Exists in Hex; [|apply _].
    rewrite (set_of_column_out_of_range _ _ _ Hex).
    rewrite set_of_column_out_of_range; [done|].
    apply Exists_exists in Hex as (r & Hr & Hno).
    apply Exists_exists. exists r. split; [by apply Hsame|done].
Qed.

Lemma get_col_set_same_data_rows_witness :
  (get_col_set "boston.csv" 0 (disk day_csv)).1
    = (get_col_set "boston.csv" 0
         (disk [["weekday"]; ["Tue"]; ["Mon"]])).1.
Proof.
  apply (get_col_set_same_data_rows (disk day_csv)
           (disk [["weekday"]; ["Tue"]; ["Mon"]]) "boston.csv"
           ["day"] ["weekday"]
           [["Mon"]; ["Tue"]; ["Mon"]] [["Tue"]; ["Mon"]] 0).
  - reflexivity.
  - reflexivity.
  - intros r. rewrite !elem_of_cons, !elem_of_nil. tauto.
Defined.

(** X7. On a file whose data rows all have [n] fields, the index [-k] with
    [1 <= k <= n] gives the same outcome as the index [n - k]. *)
Theorem get_col_set_negative_as_positive (w : world)
    (csv_filename : string) (header : row) (rows : list row) (n k : nat) :
  files w !! csv_filename = Some (header :: rows) →
  Forall (λ r, length r = n) rows →
  1 ≤ k → k ≤ n →
  get_col_set csv_filename (- Z.of_nat k) w
    = get_col_set csv_filename (Z.of_nat (n - k)) w.
Proof.
  intros Hfile Hrows Hk1 Hkn.
  rewrite !get_col_set_run, Hfile. f_equal.
  apply set_of_column_ext.
  eapply Forall_impl; [exact Hrows|]. intros r <-.
  destruct (getitem_neg r k Hk1 Hkn) as (v & Hv & ->).
  by rewrite getitem_nat, Hv.
Qed.

Lemma get_col_set_negative_as_positive_witness :
  get_col_set "boston.csv" (- Z.of_nat 1) (disk desc_csv)
    = get_col_set "boston.csv" (Z.of_nat (2 - 1)) (disk desc_csv).
Proof.
  apply (get_col_set_negative_as_positive (disk desc_csv) "boston.csv"
           ["id"; "desc"]
           [["1"; "LARCENY"]; ["2"; "VANDALISM"]; ["3"; "LARCENY"]] 2 1).
  - reflexivity.
  - repeat constructor.
  - lia.
  - lia.
Defined.

(** ** The output of the loop *)

Section output.
Implicit Types (w : world) (indices : list nat) (col_headers : row).
Implicit Types (lines : list string).

Lemma printed_nil w : printed w [] = w.
Proof. destruct w as [fs out]. unfold printed. simpl. by rewrite app_nil_r. Qed.

Lemma printed_app w lines lines' :
  printed (printed w lines) lines' = printed w (lines ++ lines').
Proof. unfold printed. simpl. by rewrite app_assoc. Qed.

(** A round whose call fails ends the loop with the exception of the call
    and prints nothing. *)
Lemma profiling_loop_raise csv_filename col_headers i indices w e :
  (get_col_set csv_filename (Z.of_nat i) w).1 = inl e →
  profiling_loop csv_filename col_headers (i :: indices) w = (inl e, w).
Proof.
  intros He. simpl. unfold mbind, py_bind.
  by rewrite num_unique_values_run, He.
Qed.

(** The loop over two lists of indices one after the other. *)
Lemma profiling_loop_app csv_filename col_headers indices indices' w :
  profiling_loop csv_filename col_headers (indices ++ indices') w =
    match profiling_loop csv_filename col_headers indices w with
    | (inl e, w') => (inl e, w')
    | (inr _, w') => profiling_loop csv_filename col_headers indices' w'
    end.
Proof.
  revert w. induction indices as [|i indices IH]; intros w; [done|].
  destruct (get_col_set csv_filename (Z.of_nat i) w).1 as [e|s] eqn:Hs.
  { simpl app. by rewrite !(profiling_loop_raise _ _ _ _ _ _ Hs). }
  destruct (col_headers !! i) as [name|] eqn:Hname.
  - simpl app. rewrite !(profiling_loop_cons _ _ _ _ _ _ _ Hname Hs).
    apply IH.
  - simpl. unfold mbind, py_bind. rewrite num_unique_values_run, Hs. simpl.
    unfold lift. by rewrite getitem_nat, Hname.
Qed.

(** The loop prints one line for each round that is completed, and a round
    that raises is the last. *)
Lemma profiling_loop_count csv_filename col_headers indices :
  ∀ w, ∃ r lines,
    profiling_loop csv_filename col_headers indices w = (r, printed w lines) ∧
    match r with
    | inr _ => length lines = length indices
    | inl _ => length lines < length indices
    end.
Proof.
  induction indices as [|i indices IH]; intros w.
  - exists (inr ()), []. by rewrite printed_nil.
  - destruct (get_col_set csv_filename (Z.of_nat i) w).1 as [e|s] eqn:Hs.
    { exists (inl e), [].
      rewrite (profiling_loop_raise _ _ _ _ _ _ Hs), printed_nil.
      split; [done|simpl; lia]. }
    destruct (col_headers !! i) as [name|] eqn:Hname.
    + destruct (IH (printed w [column_line name (size s)]))
        as (r & lines & Hrun & Hlen).
      exists r, (column_line name (size s) :: lines).
      rewrite (profiling_loop_cons _ _ _ _ _ _ _ Hname Hs).
      fold (printed w [column_line name (size s)]).
      rewrite Hrun, printed_app. split; [done|].
      destruct r; simpl; lia.
    + exists (inl IndexError), []. rewrite printed_nil.
      split; [|simpl; lia]. simpl. unfold mbind, py_bind.
      rewrite num_unique_values_run, Hs. simpl.
      unfold lift. by rewrite getitem_nat, Hname.
Qed.

(** The lines of the columns [0 .. n - 1] when the call succeeds for each
    of them, in a world with the files of [w0]. *)
Lemma profiling_loop_prefix csv_filename col_headers (n : nat) w0 w :
  files w = files w0 →
  n ≤ length col_headers →
  (∀ i, i < n →
     ∃ s, get_col_set csv_filename (Z.of_nat i) w0 = (inr s, w0)) →
  ∃ lines,
    profiling_loop csv_filename col_headers (seq 0 n) w
      = (inr (), printed w lines) ∧
    length lines = n ∧
    ∀ i name, i < n → col_headers !! i = Some name →
      ∃ s, get_col_set csv_filename (Z.of_nat i) w0 = (inr s, w0) ∧
           lines !! i = Some (column_line name (size s)).
Proof.
  intros Hw Hn Hcol.
  destruct (profiling_loop_lines csv_filename col_headers (seq 0 n) w0)
    with (w := w) as (lines & Hrun & Hlines); [|done|].
  { apply Forall_forall. intros i [_ Hi]%elem_of_seq.
    destruct (lookup_lt_is_Some_2 col_headers i) as [name Hname]; [lia|].
    destruct (Hcol i) as [s Hs]; [lia|].
    exists name, s. by rewrite Hs. }
  exists lines. split; [by rewrite Hrun; unfold printed; rewrite Hw|].
  pose proof (Forall2_length _ _ _ Hlines) as Hlen.
  rewrite length_seq in Hlen. split; [done|].
  intros i name Hi Hname.
  destruct (Hcol i Hi) as [s Hs]. exists s. split; [done|].
  assert (seq 0 n !! i = Some i) as Hseq by by apply lookup_seq.
  destruct (Forall2_lookup_l _ _ _ _ _ Hlines Hseq)
    as (line & Hline & name' & s' & Hname' & Hs' & ->).
  rewrite Hs in Hs'. simpl in Hs'. by simplify_eq.
Qed.
End output.

(** X8. Whatever the file and the list of column names, the loop over the
    columns only appends lines to the output: as many as there are column
    names when it ends normally, fewer when it raises. *)
Theorem profile_columns_line_count (w : world) (csv_filename : string)
    (col_headers : row) :
  ∃ (r : result ()) (lines : list string),
    profile_columns csv_filename col_headers w = (r, printed w lines) ∧
    match r with
    | inr _ => length lines = length col_headers
    | inl _ => length lines < length col_headers
    end.
Proof.
  destruct (profiling_loop_count csv_filename col_headers
              (seq 0 (length col_headers)) w) as (r & lines & Hrun & Hlen).
  exists r, lines. split; [done|]. by rewrite length_seq in Hlen.
Qed.

(** X9. When every data row has at least [k] fields, some data row has
    exactly [k], and the header has more than [k] columns, the loop prints
    the lines of the columns [0 .. k - 1], each with the count of its
    column, and then raises [IndexError] at column [k]. *)
Theorem profile_columns_stops_at_short_column (w : world)
    (csv_filename : string) (header : row) (rows : list row) (k : nat) :
  files w !! csv_filename = Some (header :: rows) →
  k < length header →
  Forall (λ r, k ≤ length r) rows →
  Exists (λ r, length r = k) rows →
  ∃ lines : list string,
    profile_columns csv_filename header w
      = (inl IndexError, printed w lines) ∧
    length lines = k ∧
    ∀ (i : nat) (name : string), i < k → header !! i = Some name →
      ∃ s : gset string,
        get_col_set csv_filename (Z.of_nat i) w = (inr s, w) ∧
        lines !! i = Some (column_line name (size s)).
Proof.
  intros Hfile Hk Hrows Hshort.
  destruct (profiling_loop_prefix csv_filename header k w w)
    as (lines & Hrun & Hlen & Hlines); [done|lia| |].
  { intros i Hi.
    destruct (get_col_set_fields csv_filename (Z.of_nat i) w header rows
                (λ _, i) Hfile) as (s & Hs & _); [|by exists s].
    eapply Forall_impl; [exact Hrows|]. intros r Hr. simpl in Hr.
    apply getitem_nat_lt. lia. }
  exists lines. split; [|done].
  unfold profile_columns.
  replace (length header) with (k + S (length header - S k)) by lia.
  rewrite seq_app, profiling_loop_app, Hrun. simpl seq.
  apply profiling_loop_raise.
  rewrite get_col_set_run. simpl. rewrite Hfile.
  apply set_of_column_inl.
  eapply Exists_impl; [exact Hshort|]. intros r Hr. simpl in Hr.
  apply getitem_nat_ge. lia.
Qed.

Lemma profile_columns_stops_at_short_column_witness :
  ∃ lines : list string,
    profile_columns "boston.csv" ["id"; "desc"] (disk short_row_csv)
      = (inl IndexError, printed (disk short_row_csv) lines) ∧
    length lines = 1 ∧
    ∀ (i : nat) (name : string), i < 1 → ["id"; "desc"] !! i = Some name →
      ∃ s : gset string,
        get_col_set "boston.csv" (Z.of_nat i) (disk short_row_csv)
          = (inr s, disk short_row_csv) ∧
        lines !! i = Some (column_line name (size s)).
Proof.
  apply (profile_columns_stops_at_short_column (disk short_row_csv)
           "boston.csv" ["id"; "desc"] [["1"; "LARCENY"]; ["2"]] 1).
  - reflexivity.
  - simpl. lia.
  - repeat constructor.
  - apply Exists_cons_tl, Exists_cons_hd. reflexivity.
Defined.

(** X10. On a file that holds only a header row, the loop run with that
    header ends normally and reports 0 unique values for every column. *)
Theorem profile_columns_header_only (w : world) (csv_filename : string)
    (header : row) :
  files w !! csv_filename = Some [header] →
  profile_columns csv_filename header w =
    (inr (), printed w ((λ name, column_line name 0) <$> header)).
Proof.
  intros Hfile.
  assert (∀ i : nat, get_col_set csv_filename (Z.of_nat i) w = (inr ∅, w))
    as Hempty.
  { intros i. by rewrite get_col_set_run, Hfile. }
  destruct (profiling_loop_prefix csv_filename header (length header) w w)
    as (lines & Hrun & Hlen & Hlines); [done|done| |].
  { intros i _. by exists ∅. }
  unfold profile_columns. rewrite Hrun. do 2 f_equal.
  apply (list_eq_same_length _ _ (length header));
    [by rewrite length_fmap|done|].
  intros i line line' Hi Hline Hline'.
  rewrite list_lookup_fmap in Hline'.
  destruct (header !! i) as [name|] eqn:Hname; [|done].
  destruct (Hlines i name Hi Hname) as (s & Hs & Hl).
  rewrite Hempty in Hs. injection Hs as <-.
  rewrite size_empty in Hl. simpl in Hline'. congruence.
Qed.

Lemma profile_columns_header_only_witness :
  profile_columns "boston.csv" ["id"; "desc"] (disk header_only_csv) =
    (inr (), printed (disk header_only_csv)
               ((λ name, column_line name 0) <$> ["id"; "desc"])).
Proof.
  apply (profile_columns_header_only (disk header_only_csv) "boston.csv"
           ["id"; "desc"]).
  reflexivity.
Defined.

(** ** The column names and the loop *)

Section column_names.
Implicit Types (w : world) (rows : list row) (repr : row → string).

(** What the cell does with each kind of file. *)
Lemma column_names_and_sample_run repr csv_filename w :
  column_names_and_sample repr csv_filename w =
    match files w !! csv_filename with
    | None => (inl FileNotFoundError, w)
    | Some (col_headers :: first_row :: _) =>
        (inr (col_headers, first_row),
         printed w ["Column names --> " +:+ repr col_headers;
                    "First row of data --> " +:+ repr first_row])
    | Some _ => (inl StopIteration, w)
    end.
Proof.
  unfold column_names_and_sample, mbind at 1, py_bind, open_reader.
  destruct (files w !! csv_filename) as [[|col_headers [|first_row rows]]|];
    try done.
  unfold printed, mbind, py_bind, lift, print, mret, py_ret. simpl.
  by rewrite <-app_assoc.
Qed.
End column_names.

(** X11. On a file with fewer than two rows, so also on one that holds only
    a header row, the cell that shows the column names raises
    [StopIteration] and prints nothing, and so does the sequence of that
    cell and the loop over the columns. *)
Theorem column_names_need_two_rows (w : world) (repr : row → string)
    (csv_filename : string) (rows : list row) :
  files w !! csv_filename = Some rows →
  length rows < 2 →
  column_names_and_sample repr csv_filename w = (inl StopIteration, w) ∧
  inspect_columns repr csv_filename w = (inl StopIteration, w).
Proof.
  intros Hfile Hlen.
  assert (column_names_and_sample repr csv_filename w
            = (inl StopIteration, w)) as Hcell.
  { rewrite column_names_and_sample_run, Hfile.
    destruct rows as [|col_headers [|first_row rows]]; try done.
    simpl in Hlen. lia. }
  split; [done|].
  unfold inspect_columns, mbind, py_bind. by rewrite Hcell.
Qed.

Lemma column_names_need_two_rows_witness :
  column_names_and_sample (String.concat ", ") "boston.csv"
    (disk header_only_csv) = (inl StopIteration, disk header_only_csv) ∧
  inspect_columns (String.concat ", ") "boston.csv" (disk header_only_csv)
    = (inl StopIteration, disk header_only_csv).
Proof.
  apply (column_names_need_two_rows (disk header_only_csv)
           (String.concat ", ") "boston.csv" [["id"; "desc"]]).
  - reflexivity.
  - simpl. lia.
Defined.

(** X12. On a file with a header row and at least one data row, in which
    every data row has at least as many fields as the header, the cell that
    shows the column names followed by the loop over the columns ends
    normally; it prints the column names, the first data row, and then one
    line per header column, in the order of the header, each with the count
    of its column. *)
Theorem inspect_columns_output (w : world) (repr : row → string)
    (csv_filename : string) (header first_row : row) (rows : list row) :
  files w !! csv_filename = Some (header :: first_row :: rows) →
  Forall (λ r, length header ≤ length r) (first_row :: rows) →
  ∃ lines : list string,
    inspect_columns repr csv_filename w =
      (inr (), printed w (("Column names --> " +:+ repr header) ::
                          ("First row of data --> " +:+ repr first_row) ::
                          lines)) ∧
    length lines = length header ∧
    ∀ (i : nat) (name : string), header !! i = Some name →
      ∃ s : gset string,
        get_col_set csv_filename (Z.of_nat i) w = (inr s, w) ∧
        lines !! i = Some (column_line name (size s)).
Proof.
  intros Hfile Hrows.
  destruct (profiling_loop_prefix csv_filename header (length header) w
              (printed w ["Column names --> " +:+ repr header;
                          "First row of data --> " +:+ repr first_row]))
    as (lines & Hrun & Hlen & Hlines); [done|done| |].
  { intros i Hi.
    destruct (get_col_set_fields csv_filename (Z.of_nat i) w header
                (first_row :: rows) (λ _, i) Hfile) as (s & Hs & _);
      [|by exists s].
    eapply Forall_impl; [exact Hrows|]. intros r Hr. simpl in Hr.
    apply getitem_nat_lt. lia. }
  exists lines. split; [|split; [done|]].
  - unfold inspect_columns, mbind, py_bind.
    rewrite column_names_and_sample_run, Hfile.
    unfold profile_columns. by rewrite Hrun, printed_app.
  - intros i name Hname. apply Hlines; [|done].
    by apply lookup_lt_Some in Hname.
Qed.

Lemma inspect_columns_output_witness :
  ∃ lines : list string,
    inspect_columns (String.concat ", ") "boston.csv" (disk desc_csv) =
      (inr (), printed (disk desc_csv)
                 (("Column names --> "
                     +:+ String.concat ", " ["id"; "desc"]) ::
                  ("First row of data --> "
                     +:+ String.concat ", " ["1"; "LARCENY"]) ::
                  lines)) ∧
    length lines = length ["id"; "desc"] ∧
    ∀ (i : nat) (name : string), ["id"; "desc"] !! i = Some name →
      ∃ s : gset string,
        get_col_set "boston.csv" (Z.of_nat i) (disk desc_csv)
          = (inr s, disk desc_csv) ∧
        lines !! i = Some (column_line name (size s)).
Proof.
  apply (inspect_columns_output (disk desc_csv) (String.concat ", ")
           "boston.csv" ["id"; "desc"] ["1"; "LARCENY"]
           [["2"; "VANDALISM"]; ["3"; "LARCENY"]]).
  - reflexivity.
  - repeat constructor.
Defined.

(** ** More on the maximum and on the loop *)

Section more.
Implicit Types (w : world) (indices : list nat) (col_headers : row).

(** A loop that ends normally has had every call succeed. *)
Lemma profiling_loop_returns csv_filename col_headers indices :
  ∀ w w', profiling_loop csv_filename col_headers indices w = (inr (), w') →
  Forall (λ i, ∃ s, (get_col_set csv_filename (Z.of_nat i) w).1 = inr s)
    indices.
Proof.
  induction indices as [|i indices IH]; intros w w' Hrun; [constructor|].
  destruct (get_col_set csv_filename (Z.of_nat i) w).1 as [e|s] eqn:Hs.
  { by rewrite (profiling_loop_raise _ _ _ _ _ _ Hs) in Hrun. }
  destruct (col_headers !! i) as [name|] eqn:Hname.
  - rewrite (profiling_loop_cons _ _ _ _ _ _ _ Hname Hs) in Hrun.
    constructor; [by exists s|].
    apply IH in Hrun. eapply Forall_impl; [exact Hrun|].
    intros j [s' Hs']. exists s'. rewrite <-Hs'.
    by apply get_col_set_files.
  - simpl in Hrun. unfold mbind, py_bind in Hrun.
    rewrite num_unique_values_run, Hs in Hrun. simpl in Hrun.
    unfold lift in Hrun. by rewrite getitem_nat, Hname in Hrun.
Qed.
End more.

(** X13. The maximum length does not depend on the order in which the set
    is iterated, nor on repetitions: the maximum of the lengths over any
    list with the same members as the set, such as the column itself, has
    the same outcome as [desc_max_length] on the set. *)
Theorem desc_max_length_of_any_listing (desc_unique_values : gset string)
    (listing : list string) :
  (∀ v, v ∈ listing ↔ v ∈ desc_unique_values) →
  py_max (String.length <$> listing) = desc_max_length desc_unique_values.
Proof.
  intros Hsame. destruct listing as [|v0 listing].
  - assert (desc_unique_values = ∅) as ->.
    { apply set_eq. intros v. rewrite <-Hsame.
      split; [by intros ?%elem_of_nil|by intros ?%not_elem_of_empty]. }
    by rewrite desc_max_length_empty.
  - destruct (desc_max_length_is_max desc_unique_values)
      as (m & -> & Hmax).
    { intros ->. apply (not_elem_of_empty (C:=gset string) v0), Hsame.
      apply list_elem_of_here. }
    rewrite py_max_nonempty by done. f_equal.
    apply (is_max_length_unique desc_unique_values); [|done]. split.
    + assert (String.length <$> v0 :: listing ≠ []) as Hlist by done.
      apply max_list_attained, list_elem_of_fmap in Hlist
        as (v & Hv1 & Hv2).
      exists v. split; [by apply Hsame|done].
    + intros v Hv. apply max_list_elem_of_le, list_elem_of_fmap.
      exists v. split; [done|by apply Hsame].
Qed.

Lemma desc_max_length_of_any_listing_witness :
  py_max (String.length <$> ["LARCENY"; "VANDALISM"; "LARCENY"])
    = desc_max_length {[ "VANDALISM"; "LARCENY" ]}.
Proof.
  apply (desc_max_length_of_any_listing {[ "VANDALISM"; "LARCENY" ]}
           ["LARCENY"; "VANDALISM"; "LARCENY"]).
  intros v.
  rewrite !elem_of_cons, elem_of_nil, elem_of_union, !elem_of_singleton.
  tauto.
Defined.

(** X14. With at least one column name, the loop over the columns raises
    before it prints anything when the file cannot be read: with
    [FileNotFoundError] when the file is absent, with [StopIteration] when
    the file has no row at all. *)
Theorem profile_columns_unreadable_file (w : world) (csv_filename : string)
    (col_headers : row) :
  col_headers ≠ [] →
  (files w !! csv_filename = None →
   profile_columns csv_filename col_headers w = (inl FileNotFoundError, w)) ∧
  (files w !! csv_filename = Some [] →
   profile_columns csv_filename col_headers w = (inl StopIteration, w)).
Proof.
  intros Hne. unfold profile_columns.
  destruct col_headers as [|name col_headers]; [done|]. simpl seq.
  split; intros Hfile; apply profiling_loop_raise;
    by rewrite get_col_set_run, Hfile.
Qed.

Lemma profile_columns_unreadable_file_witness :
  profile_columns "crimes.csv" ["id"; "desc"] (disk [])
    = (inl FileNotFoundError, disk []) ∧
  profile_columns "boston.csv" ["id"; "desc"] (disk [])
    = (inl StopIteration, disk []).
Proof.
  split.
  - apply (proj1 (profile_columns_unreadable_file (disk []) "crimes.csv"
                    ["id"; "desc"] ltac:(discriminate))).
    reflexivity.
  - apply (proj2 (profile_columns_unreadable_file (disk []) "boston.csv"
                    ["id"; "desc"] ltac:(discriminate))).
    reflexivity.
Defined.

(** X15. On a file with a header row, the loop over the columns of that
    header ends normally exactly when no data row has fewer fields than the
    header. *)
Theorem profile_columns_returns_iff (w : world) (csv_filename : string)
    (header : row) (rows : list row) :
  files w !! csv_filename = Some (header :: rows) →
  (∃ w', profile_columns csv_filename header w = (inr (), w')) ↔
  Forall (λ r, length header ≤ length r) rows.
Proof.
  intros Hfile. split.
  - intros [w' Hrun%profiling_loop_returns].
    destruct (decide (length header = 0)) as [Hzero|Hpos].
    { apply Forall_forall. intros r _. lia. }
    rewrite Forall_forall in Hrun.
    destruct (Hrun (length header - 1)) as [s Hs].
    { apply elem_of_seq. lia. }
    rewrite get_col_set_run, Hfile in Hs. simpl in Hs.
    apply set_of_column_returns in Hs.
    eapply Forall_impl; [exact Hs|]. intros r Hr.
    unfold in_range in Hr. lia.
  - intros Hrows.
    destruct (profiling_loop_prefix csv_filename header (length header) w w)
      as (lines & Hrun & _); [done|done| |by exists (printed w lines)].
    intros i Hi.
    destruct (get_col_set_fields csv_filename (Z.of_nat i) w header rows
                (λ _, i) Hfile) as (s & Hs & _); [|by exists s].
    eapply Forall_impl; [exact Hrows|]. intros r Hr. simpl in Hr.
    apply getitem_nat_lt. lia.
Qed.

Lemma profile_columns_returns_iff_witness :
  (∃ w', profile_columns "boston.csv" ["id"; "desc"] (disk short_row_csv)
           = (inr (), w')) ↔
  Forall (λ r, length ["id"; "desc"] ≤ length r) [["1"; "LARCENY"]; ["2"]].
Proof.
  apply (profile_columns_returns_iff (disk short_row_csv) "boston.csv"
           ["id"; "desc"] [["1"; "LARCENY"]; ["2"]]).
  reflexivity.
Defined.
